(** * Client-side Merkle proof verification (blockchain-frontend/src/App.js)

    A shallow embedding of the two algorithmic pieces of [App.js]:
    [calculateTxHash] (lines 129-131) and [verifyMerkleProofClientSide]
    (lines 134-163), with the part of the [js-sha256] package they call.

    Strings.  A JavaScript string is modelled by a Rocq [string] whose
    characters are its UTF-16 code units; the model covers the strings whose
    code units are below 256 (this includes every hexadecimal digest).  On
    these strings [<] compares code units lexicographically, which is
    [String.ltb], and [===] is [String.eqb]. *)

From Stdlib Require Import ZArith String Ascii List Lia Bool.
From Stdlib Require Import DecimalString.
From Stdlib Require DecimalZ DecimalPos.
From stdpp Require Import gmap strings.
Import ListNotations.

Local Open Scope Z_scope.

(** ** The [js-sha256] package

    [js-sha256] is an npm dependency of the front end.  It implements SHA-256
    as specified in FIPS 180-4 over the UTF-8 encoding of a string, and
    renders the digest as 64 lowercase hexadecimal characters.  Words are
    32-bit integers, written here as [Z] with the wrap-around explicit. *)
Module SHA256.

Definition mask32 : Z := 0xFFFFFFFF.

Definition add32 (x y : Z) : Z := Z.land (x + y) mask32.

(* (x >>> n) | (x << (32 - n)) on 32-bit words *)
Definition rotr (n x : Z) : Z :=
  Z.lor (Z.shiftr x n) (Z.land (Z.shiftl x (32 - n)) mask32).

Definition Ch (x y z : Z) : Z :=
  Z.lxor (Z.land x y) (Z.land (Z.lxor x mask32) z).

Definition Maj (x y z : Z) : Z :=
  Z.lxor (Z.lxor (Z.land x y) (Z.land x z)) (Z.land y z).

Definition bsig0 (x : Z) : Z := Z.lxor (Z.lxor (rotr 2 x) (rotr 13 x)) (rotr 22 x).
Definition bsig1 (x : Z) : Z := Z.lxor (Z.lxor (rotr 6 x) (rotr 11 x)) (rotr 25 x).
Definition ssig0 (x : Z) : Z := Z.lxor (Z.lxor (rotr 7 x) (rotr 18 x)) (Z.shiftr x 3).
Definition ssig1 (x : Z) : Z := Z.lxor (Z.lxor (rotr 17 x) (rotr 19 x)) (Z.shiftr x 10).

(* The round constants, in the four-per-line layout of the package source. *)
Definition K : list Z :=
  [ 0x428A2F98; 0x71374491; 0xB5C0FBCF; 0xE9B5DBA5;
    0x3956C25B; 0x59F111F1; 0x923F82A4; 0xAB1C5ED5;
    0xD807AA98; 0x12835B01; 0x243185BE; 0x550C7DC3;
    0x72BE5D74; 0x80DEB1FE; 0x9BDC06A7; 0xC19BF174;
    0xE49B69C1; 0xEFBE4786; 0x0FC19DC6; 0x240CA1CC;
    0x2DE92C6F; 0x4A7484AA; 0x5CB0A9DC; 0x76F988DA;
    0x983E5152; 0xA831C66D; 0xB00327C8; 0xBF597FC7;
    0xC6E00BF3; 0xD5A79147; 0x06CA6351; 0x14292967;
    0x27B70A85; 0x2E1B2138; 0x4D2C6DFC; 0x53380D13;
    0x650A7354; 0x766A0ABB; 0x81C2C92E; 0x92722C85;
    0xA2BFE8A1; 0xA81A664B; 0xC24B8B70; 0xC76C51A3;
    0xD192E819; 0xD6990624; 0xF40E3585; 0x106AA070;
    0x19A4C116; 0x1E376C08; 0x2748774C; 0x34B0BCB5;
    0x391C0CB3; 0x4ED8AA4A; 0x5B9CCA4F; 0x682E6FF3;
    0x748F82EE; 0x78A5636F; 0x84C87814; 0x8CC70208;
    0x90BEFFFA; 0xA4506CEB; 0xBEF9A3F7; 0xC67178F2 ].

(* The eight working variables, also the shape of the chaining value. *)
Record regs : Type := Regs
  { ra : Z; rb : Z; rc : Z; rd : Z; re : Z; rf : Z; rg : Z; rh : Z }.

Definition init : regs :=
  Regs 0x6A09E667 0xBB67AE85 0x3C6EF372 0xA54FF53A
       0x510E527F 0x9B05688C 0x1F83D9AB 0x5BE0CD19.

(* Message schedule.  [ws] holds the words computed so far, newest first. *)
Fixpoint extend (n : nat) (ws : list Z) : list Z :=
  match n with
  | O => ws
  | S n' =>
      let w :=
        add32 (add32 (add32 (ssig1 (nth 1 ws 0)) (nth 6 ws 0))
                     (ssig0 (nth 14 ws 0)))
              (nth 15 ws 0) in
      extend n' (w :: ws)
  end.

Definition schedule (block : list Z) : list Z := rev (extend 48 (rev block)).

Definition round (r : regs) (kw : Z * Z) : regs :=
  let t1 :=
    add32 (add32 (add32 (add32 (rh r) (bsig1 (re r))) (Ch (re r) (rf r) (rg r)))
                 (fst kw))
          (snd kw) in
  let t2 := add32 (bsig0 (ra r)) (Maj (ra r) (rb r) (rc r)) in
  Regs (add32 t1 t2) (ra r) (rb r) (rc r) (add32 (rd r) t1) (re r) (rf r) (rg r).

Definition compress (hs : regs) (block : list Z) : regs :=
  let r := fold_left round (combine K (schedule block)) hs in
  Regs (add32 (ra hs) (ra r)) (add32 (rb hs) (rb r))
       (add32 (rc hs) (rc r)) (add32 (rd hs) (rd r))
       (add32 (re hs) (re r)) (add32 (rf hs) (rf r))
       (add32 (rg hs) (rg r)) (add32 (rh hs) (rh r)).

(* Padding: a 1 bit, zeros, and the bit length on 64 bits, big-endian. *)
Definition be_bytes (count : nat) (x : Z) : list Z :=
  map (fun i => Z.land (Z.shiftr x (8 * Z.of_nat i)) 0xFF) (rev (seq 0 count)).

Definition pad (msg : list Z) : list Z :=
  let len := Z.of_nat (List.length msg) in
  msg ++ 0x80 :: repeat 0 (Z.to_nat ((55 - len) mod 64)) ++ be_bytes 8 (8 * len).

Fixpoint words_of_bytes (bs : list Z) : list Z :=
  match bs with
  | b0 :: b1 :: b2 :: b3 :: rest =>
      Z.lor (Z.lor (Z.shiftl b0 24) (Z.shiftl b1 16)) (Z.lor (Z.shiftl b2 8) b3)
      :: words_of_bytes rest
  | _ => []
  end.

Fixpoint hash_blocks (n : nat) (ws : list Z) (hs : regs) : regs :=
  match n with
  | O => hs
  | S n' => hash_blocks n' (skipn 16 ws) (compress hs (firstn 16 ws))
  end.

Definition digest (msg : list Z) : regs :=
  let ws := words_of_bytes (pad msg) in
  hash_blocks (Nat.div (List.length ws) 16) ws init.

(* Lowercase hexadecimal rendering. *)
Definition hex_digit (n : Z) : ascii :=
  nth (Z.to_nat n) (list_ascii_of_string "0123456789abcdef") "0"%char.

Definition hex_word (w : Z) : list ascii :=
  map (fun i => hex_digit (Z.land (Z.shiftr w (4 * Z.of_nat i)) 0xF)) (rev (seq 0 8)).

Definition hex_of_regs (r : regs) : string :=
  string_of_list_ascii
    (flat_map hex_word [ra r; rb r; rc r; rd r; re r; rf r; rg r; rh r]).

(* UTF-8 bytes of a string whose code units are below 256: one byte below
   0x80, two bytes from 0x80 on. *)
Definition utf8_char (c : ascii) : list Z :=
  let code := Z.of_N (N_of_ascii c) in
  if code <? 0x80 then [code]
  else [Z.lor 0xC0 (Z.shiftr code 6); Z.lor 0x80 (Z.land code 0x3F)].

Fixpoint utf8 (s : string) : list Z :=
  match s with
  | EmptyString => []
  | String c s' => utf8_char c ++ utf8 s'
  end.

(** The hasher object of [sha256.create()]: the message bytes fed so far. *)
Record Hasher : Type := { fed : list Z }.

Definition create : Hasher := {| fed := [] |}.

Definition update (hs : Hasher) (message : string) : Hasher :=
  {| fed := fed hs ++ utf8 message |}.

Definition hex (hs : Hasher) : string := hex_of_regs (digest (fed hs)).

End SHA256.

(** [sha256(message)]: the one-shot form, [create], [update], [hex]. *)
Definition sha256 (message : string) : string :=
  SHA256.hex (SHA256.update SHA256.create message).

Arguments sha256 : simpl never.
Arguments SHA256.hex : simpl never.

(** ** JavaScript values and completions *)

(** The values a field of a JSON-decoded object holds in this model: a string,
    an integer number (of magnitude below 2^53, so that it is exact), or an
    array of strings.  [undefined], the value of an absent property, is the
    [None] of [option value]. *)
Inductive value : Type :=
  | VStr (s : string)
  | VNum (n : Z)
  | VArr (l : list string).

(** An object decoded from JSON: its own properties by name. *)
Abbreviation jsobject := (gmap string value).

(** How a piece of code completes: it returns, or an exception escapes. *)
Inductive completion (A : Type) : Type :=
  | Returned (a : A)
  | Thrown.

Arguments Returned {A} a.
Arguments Thrown {A}.

(** [String(n)] for an integer number: an optional minus sign and the decimal
    digits, without leading zeros. *)
Definition Number_toString (n : Z) : string :=
  NilZero.string_of_int (Z.to_int n).

(** [x === y].  Values of different types are never equal, and two arrays
    decoded from different properties are different objects. *)
Definition strict_eq (x y : option value) : bool :=
  match x, y with
  | None, None => true
  | Some (VStr s), Some (VStr t) => String.eqb s t
  | Some (VNum n), Some (VNum m) => Z.eqb n m
  | _, _ => false
  end.

(** What [for (const x of v)] iterates over: the elements of an array, the
    characters of a string; a number or [undefined] is not iterable and the
    loop header throws a [TypeError]. *)
Definition iterate (v : option value) : completion (list string) :=
  match v with
  | Some (VArr l) => Returned l
  | Some (VStr s) =>
      Returned (map (fun c => String c EmptyString) (list_ascii_of_string s))
  | Some (VNum _) | None => Thrown
  end.

(** ** The component state touched by the two functions *)

(** The inline style of the [#message] element. *)
Record MessageDiv : Type :=
  { backgroundColor : string; color : string; display : string }.

(** [message] and [merkleProofResult] are the [useState] cells of [App];
    [messageDiv] is what [document.getElementById('message')] finds, [None]
    when the element is not in the document.  [merkleProofResult] is [null]
    ([None]) or the object stored by [setMerkleProofResult]. *)
Record AppState : Type :=
  { message : string;
    messageDiv : option MessageDiv;
    merkleProofResult : option jsobject }.

(** [showMessage(msg, isError = false)], lines 115-126.  The timer that hides
    the element five seconds later is outside the model. *)
Definition showMessage (msg : string) (isError : bool) (st : AppState) : AppState :=
  {| message := msg;
     messageDiv :=
       match messageDiv st with
       | Some _ =>
           Some {| backgroundColor := if isError then "#f8d7da" else "#d4edda";
                   color := if isError then "#721c24" else "#155724";
                   display := "block" |}
       | None => None
       end;
     merkleProofResult := merkleProofResult st |}.

(** ** [calculateTxHash], lines 129-131 *)

Record Transaction : Type :=
  { sender : string; recipient : string; amount : Z }.

Definition dquote : string := String "034"%char EmptyString.

(** The cooked text of the template literal before its only substitution
    [${tx.amount}]: the escapes [\{], [\.] and [\}] stand for the characters
    themselves, and [{tx.recipient}], which has no [$], is text. *)
Definition template_text : string :=
  "<span class=" +:+ dquote +:+ "math-inline" +:+ dquote
  +:+ ">{tx.sender}</span>{tx.recipient}".

Definition calculateTxHash (tx : Transaction) : string :=
  sha256 (template_text +:+ Number_toString (amount tx)).

(** ** [verifyMerkleProofClientSide], lines 134-163 *)

(** The body of the [for] loop, lines 146-155: the value assigned to
    [currentHash]. *)
Definition loop_body (currentHash siblingHash : string) : string :=
  let hasher := SHA256.create in
  let hasher :=
    if String.ltb currentHash siblingHash
    then SHA256.update (SHA256.update hasher currentHash) siblingHash
    else SHA256.update (SHA256.update hasher siblingHash) currentHash in
  SHA256.hex hasher.

(** The loop over the siblings, lines 145-156, from the initial [currentHash].
    Both branches of the body feed [currentHash] to [hasher.update], which
    throws on [undefined] and on a number ("input is invalid type"), whatever
    the comparison gave.  An array is accepted by [update] as a byte array;
    that case (the outer [None]) is outside the model. *)
Fixpoint proof_loop (currentHash : option value) (siblings : list string)
  : option (completion (option value)) :=
  match siblings with
  | [] => Some (Returned currentHash)
  | siblingHash :: rest =>
      match currentHash with
      | Some (VStr current) =>
          proof_loop (Some (VStr (loop_body current siblingHash))) rest
      | Some (VNum _) | None => Some Thrown
      | Some (VArr _) => None
      end
  end.

(** Lines 140-158: the destructuring, the loop, and the value of the
    condition [currentHash === merkle_root]. *)
Definition proof_verdict (o : jsobject) : option (completion bool) :=
  let tx_hash := o !! "tx_hash" in
  let merkle_root := o !! "merkle_root" in
  let merkle_proof := o !! "merkle_proof" in
  match iterate merkle_proof with
  | Thrown => Some Thrown
  | Returned siblings =>
      match proof_loop tx_hash siblings with
      | Some (Returned currentHash) =>
          Some (Returned (strict_eq currentHash merkle_root))
      | Some Thrown => Some Thrown
      | None => None
      end
  end.

Definition msg_no_proof : string :=
  "No Merkle proof data to verify. Please fetch one first.".
Definition msg_verified : string :=
  "Merkle Proof verified successfully! The transaction exists in the block.".
Definition msg_failed : string :=
  "Merkle Proof verification FAILED! This transaction might not be in the block, or the proof is invalid.".

(** Lines 158-162: the message shown for each value of the condition. *)
Definition report (ok : bool) (st : AppState) : AppState :=
  if ok then showMessage msg_verified false st
  else showMessage msg_failed true st.

Definition verifyMerkleProofClientSide (st : AppState)
  : option (completion AppState) :=
  match merkleProofResult st with
  | None => Some (Returned (showMessage msg_no_proof true st))
  | Some o =>
      match proof_verdict o with
      | Some (Returned ok) => Some (Returned (report ok st))
      | Some Thrown => Some Thrown
      | None => None
      end
  end.

(** ** The verifier of the specification (section 4.2), in its own words

    The pair order places the smaller string first and the larger second;
    the pair is hashed; the verdict compares the last hash with the root. *)

Definition smaller (a b : string) : string := if String.leb a b then a else b.
Definition larger (a b : string) : string := if String.leb a b then b else a.

Definition ordered_concatenation (current sibling : string) : string :=
  smaller current sibling +:+ larger current sibling.

Definition combine_pair (current sibling : string) : string :=
  sha256 (ordered_concatenation current sibling).

Definition construct_root (L : string) (P : list string) : string :=
  fold_left combine_pair P L.

Definition spec_verify (leaf : string) (proof : list string) (expectedRoot : string)
  : bool :=
  String.eqb (construct_root leaf proof) expectedRoot.

(** The hash of the specification's TransactionHasher (section 4.1). *)
Definition spec_hash (tx : Transaction) : string :=
  sha256 (sender tx +:+ recipient tx +:+ Number_toString (amount tx)).

(** ** Proof objects and states used in the statements *)

(** The object [o] holds the leaf, the sibling list and the root under the
    property names the verifier destructures. *)
Definition carries (o : jsobject) (leaf : string) (proof : list string)
    (root : string) : Prop :=
  o !! "tx_hash" = Some (VStr leaf) /\
  o !! "merkle_root" = Some (VStr root) /\
  o !! "merkle_proof" = Some (VArr proof).

(** The same content under the property names of the specification. *)
Definition carries_camel (o : jsobject) (leaf : string) (proof : list string)
    (root : string) : Prop :=
  o !! "txHash" = Some (VStr leaf) /\
  o !! "merkleRoot" = Some (VStr root) /\
  (exists index, o !! "blockIndex" = Some (VNum index)) /\
  o !! "proofPath" = Some (VArr proof).

Definition proof_result (leaf root : string) (index : Z) (proof : list string)
  : jsobject :=
  {[ "tx_hash" := VStr leaf; "merkle_root" := VStr root;
     "block_index" := VNum index; "merkle_proof" := VArr proof ]}.

Definition camel_result (leaf root : string) (index : Z) (proof : list string)
  : jsobject :=
  {[ "txHash" := VStr leaf; "merkleRoot" := VStr root;
     "blockIndex" := VNum index; "proofPath" := VArr proof ]}.

(** The state once the page is rendered, and the state left by a successful
    [getMerkleProof] (lines 104-106). *)
Definition rendered : AppState :=
  {| message := EmptyString;
     messageDiv :=
       Some {| backgroundColor := EmptyString; color := EmptyString;
               display := "none" |};
     merkleProofResult := None |}.

Definition setMerkleProofResult (data : option jsobject) (st : AppState) : AppState :=
  {| message := message st; messageDiv := messageDiv st;
     merkleProofResult := data |}.

Definition after_fetch (data : jsobject) : AppState :=
  showMessage "Merkle proof fetched. Now you can verify it client-side." false
    (setMerkleProofResult (Some data) rendered).

(** The concrete scenario of section 8. *)
Definition scenario_H1 : string := sha256 ("aa" +:+ "bb").

Definition scenario_R : string :=
  if String.ltb scenario_H1 "cc" then sha256 (scenario_H1 +:+ "cc")
  else sha256 ("cc" +:+ scenario_H1).

Definition alice_bob (n : Z) : Transaction :=
  {| sender := "Alice"; recipient := "Bob"; amount := n |}.

(** The data contract as the specification words it: the verdict is computed
    from the properties [txHash], [merkleRoot] and [proofPath]. *)
Definition contract_as_specified : Prop :=
  forall (st : AppState) (o : jsobject) leaf proof root,
    merkleProofResult st = Some o ->
    carries_camel o leaf proof root ->
    verifyMerkleProofClientSide st
    = Some (Returned (report (spec_verify leaf proof root) st)).

(** ** [getMerkleProof], lines 89-112 *)

(** What [await fetch(url)] gives: the promise rejects (no connection), or it
    resolves to a response with a status, whose [json()] rejects when the
    body is not JSON and otherwise gives the decoded body, [null] or an
    object. *)
Inductive response : Type :=
  | Response (status : Z) (json : completion (option jsobject)).

Inductive fetch_result : Type :=
  | Rejected
  | Resolved (r : response).

(** The cooked text of the template literal of line 98.  It has no
    substitution: [\{], [\_] and [\}] stand for the characters themselves and
    neither [{API_URL}] nor [{txHashForProof}] is preceded by [$]. *)
Definition merkle_proof_url (txHashForProof : string) : string :=
  "<span class=" +:+ dquote +:+ "math-inline" +:+ dquote
  +:+ ">{API_URL}/get_merkle_proof/</span>{txHashForProof}".

Definition msg_enter_hash : string :=
  "Please enter a transaction hash to get its Merkle proof.".
Definition msg_not_found : string :=
  "Transaction or Merkle proof not found in any block. Did you mine it?".
Definition msg_fetched : string :=
  "Merkle proof fetched. Now you can verify it client-side.".
Definition msg_fetch_error : string :=
  "Error fetching Merkle proof. Check backend or hash format.".

(** The handler, run to the end of its promise.  [txHashForProof] is the
    [useState] cell the handler reads; [fetch] answers the request.  The
    [console.error] of the [catch] block is outside the model. *)
Definition getMerkleProof (txHashForProof : string)
    (fetch : string -> fetch_result) (st : AppState) : AppState :=
  match txHashForProof with
  | EmptyString =>
      setMerkleProofResult None (showMessage msg_enter_hash true st)
  | String _ _ =>
      let st := setMerkleProofResult None st in
      match fetch (merkle_proof_url txHashForProof) with
      | Resolved (Response status json) =>
          if status =? 404
          then setMerkleProofResult None (showMessage msg_not_found true st)
          else
            match json with
            | Returned data =>
                showMessage msg_fetched false (setMerkleProofResult data st)
            | Thrown =>
                setMerkleProofResult None (showMessage msg_fetch_error true st)
            end
      | Rejected =>
          setMerkleProofResult None (showMessage msg_fetch_error true st)
      end
  end.

(** ** Notions used in the statements about digests *)

(** A digest: 64 lowercase hexadecimal characters. *)
Definition is_hex_char (c : ascii) : bool :=
  existsb (Ascii.eqb c) (list_ascii_of_string "0123456789abcdef").

Definition is_digest (s : string) : bool :=
  Nat.eqb (String.length s) 64 && forallb is_hex_char (list_ascii_of_string s).





(** * Properties *)

(** ** The hasher and the order on strings *)

(** The test vectors of FIPS 180-4 and NIST for the empty message, for one
    block and for two blocks. *)
Example sha256_empty :
  sha256 EmptyString
  = "e3b0c44298fc1c149afbf4c8996fb92427ae41e4649b934ca495991b7852b855".
Proof. vm_compute. reflexivity. Qed.

Example sha256_abc :
  sha256 "abc"
  = "ba7816bf8f01cfea414140de5dae2223b00361a396177a9cb410ff61f20015ad".
Proof. vm_compute. reflexivity. Qed.

Example sha256_two_blocks :
  sha256 "abcdbcdecdefdefgefghfghighijhijkijkljklmklmnlmnomnopnopq"
  = "248d6a61d20638b8e5c026930c3e6039a33ce45964ff2167f6ecedd419db06c1".
Proof. vm_compute. reflexivity. Qed.

Example Number_toString_examples :
  Number_toString 10 = "10" /\ Number_toString 0 = "0"
  /\ Number_toString 1234567890 = "1234567890".
Proof. repeat split. Qed.

Example template_text_length : String.length template_text = 58%nat.
Proof. reflexivity. Qed.

Lemma utf8_app (a b : string) :
  SHA256.utf8 (a +:+ b) = SHA256.utf8 a ++ SHA256.utf8 b.
Proof.
  induction a as [|c a IH]; simpl.
  - reflexivity.
  - rewrite IH. apply app_assoc.
Qed.

(** Feeding two strings in turn hashes their concatenation. *)
Lemma hex_update_update (a b : string) :
  SHA256.hex (SHA256.update (SHA256.update SHA256.create a) b) = sha256 (a +:+ b).
Proof.
  unfold sha256, SHA256.update, SHA256.create. simpl.
  now rewrite utf8_app.
Qed.

Lemma ltb_false_cases (a b : string) :
  String.ltb a b = false -> a = b \/ String.ltb b a = true.
Proof.
  unfold String.ltb. rewrite (String.compare_antisym b a).
  destruct (String.compare a b) eqn:E; simpl; intros H.
  - left. now apply String.compare_eq_iff.
  - discriminate.
  - now right.
Qed.

Lemma ltb_asym (a b : string) :
  String.ltb a b = true -> String.ltb b a = false.
Proof.
  unfold String.ltb. rewrite (String.compare_antisym b a).
  destruct (String.compare a b); simpl; intros H; congruence.
Qed.

Lemma ltb_leb (a b : string) : String.ltb a b = true -> String.leb a b = true.
Proof.
  unfold String.ltb, String.leb. destruct (String.compare a b); congruence.
Qed.

Lemma leb_refl (a : string) : String.leb a a = true.
Proof.
  destruct (String.leb_total a a); assumption.
Qed.

(** ** The loop *)

Lemma loop_body_lt (a b : string) :
  String.ltb a b = true -> loop_body a b = sha256 (a +:+ b).
Proof.
  intros H. unfold loop_body. rewrite H. apply hex_update_update.
Qed.

Lemma loop_body_ge (a b : string) :
  String.ltb a b = false -> loop_body a b = sha256 (b +:+ a).
Proof.
  intros H. unfold loop_body. rewrite H. apply hex_update_update.
Qed.

(** One step is symmetric in its two strings. *)
Lemma loop_body_comm (a b : string) : loop_body a b = loop_body b a.
Proof.
  destruct (String.ltb a b) eqn:Hab.
  - rewrite (loop_body_lt _ _ Hab), (loop_body_ge _ _ (ltb_asym _ _ Hab)).
    reflexivity.
  - destruct (ltb_false_cases _ _ Hab) as [-> | Hba].
    + reflexivity.
    + rewrite (loop_body_ge _ _ Hab), (loop_body_lt _ _ Hba). reflexivity.
Qed.

(** One step of the code is one step of the specification. *)
Lemma loop_body_combine_pair (current sibling : string) :
  loop_body current sibling = combine_pair current sibling.
Proof.
  unfold combine_pair, ordered_concatenation, smaller, larger.
  destruct (String.ltb current sibling) eqn:Hlt.
  - rewrite (loop_body_lt _ _ Hlt), (ltb_leb _ _ Hlt). reflexivity.
  - rewrite (loop_body_ge _ _ Hlt).
    destruct (ltb_false_cases _ _ Hlt) as [-> | Hgt].
    + rewrite leb_refl. reflexivity.
    + assert (String.leb current sibling = false) as ->; [|reflexivity].
      unfold String.leb, String.ltb in *.
      rewrite (String.compare_antisym current sibling).
      destruct (String.compare sibling current); simpl; congruence.
Qed.

Lemma fold_loop_body (proof : list string) (leaf : string) :
  fold_left loop_body proof leaf = construct_root leaf proof.
Proof.
  unfold construct_root. revert leaf.
  induction proof as [|sibling rest IH]; intros leaf; simpl.
  - reflexivity.
  - rewrite loop_body_combine_pair. apply IH.
Qed.

(** On a string the loop never throws and ends on a string. *)
Lemma proof_loop_string (siblings : list string) (current : string) :
  proof_loop (Some (VStr current)) siblings
  = Some (Returned (Some (VStr (fold_left loop_body siblings current)))).
Proof.
  revert current. induction siblings as [|sibling rest IH]; intros current; simpl.
  - reflexivity.
  - apply IH.
Qed.

Lemma proof_verdict_carries (o : jsobject) leaf proof root :
  carries o leaf proof root ->
  proof_verdict o = Some (Returned (spec_verify leaf proof root)).
Proof.
  intros (Hleaf & Hroot & Hproof). unfold proof_verdict.
  rewrite Hleaf, Hroot, Hproof. simpl iterate. cbv iota.
  rewrite proof_loop_string, fold_loop_body. reflexivity.
Qed.

Lemma verify_carries (st : AppState) (o : jsobject) leaf proof root :
  merkleProofResult st = Some o ->
  carries o leaf proof root ->
  verifyMerkleProofClientSide st
  = Some (Returned (report (spec_verify leaf proof root) st)).
Proof.
  intros Hst Ho. unfold verifyMerkleProofClientSide.
  rewrite Hst, (proof_verdict_carries _ _ _ _ Ho). reflexivity.
Qed.

Lemma carries_proof_result leaf root index proof :
  carries (proof_result leaf root index proof) leaf proof root.
Proof.
  unfold carries, proof_result. repeat split; by simplify_map_eq.
Qed.

Lemma verify_after_fetch leaf root index proof :
  verifyMerkleProofClientSide (after_fetch (proof_result leaf root index proof))
  = Some (Returned
      (report (spec_verify leaf proof root)
         (after_fetch (proof_result leaf root index proof)))).
Proof.
  apply verify_carries with (o := proof_result leaf root index proof).
  - reflexivity.
  - apply carries_proof_result.
Qed.

Lemma report_true_false (st : AppState) : report true st <> report false st.
Proof.
  unfold report, showMessage. intros H.
  apply (f_equal message) in H. simpl in H. discriminate H.
Qed.

(** ** The verifier *)

(** C1: for every leaf digest, proof path and expected root held by the
    fetched object, the verdict is the fold over the path in order: from
    [current = leaf], each step hashes the concatenation of the smaller string
    and the larger string (in the lexicographic order of strings), and the
    verdict is the boolean [current == expectedRoot]; the message shown is the
    one of that verdict. *)
Theorem verifier_folds_over_path
    (st : AppState) (o : jsobject) (leaf : string) (proof : list string)
    (root : string) :
  merkleProofResult st = Some o ->
  carries o leaf proof root ->
  proof_verdict o
  = Some (Returned
      (String.eqb
         (fold_left
            (fun current sibling =>
               sha256 (smaller current sibling +:+ larger current sibling))
            proof leaf)
         root))
  /\ verifyMerkleProofClientSide st
     = Some (Returned (report (spec_verify leaf proof root) st)).
Proof.
  intros Hst Ho. split.
  - rewrite (proof_verdict_carries _ _ _ _ Ho). reflexivity.
  - now apply verify_carries with (o := o).
Qed.

Lemma verifier_folds_over_path_witness :
  proof_verdict (proof_result "aa" scenario_R 1 ["bb"; "cc"])
  = Some (Returned
      (String.eqb
         (fold_left
            (fun current sibling =>
               sha256 (smaller current sibling +:+ larger current sibling))
            ["bb"; "cc"] "aa")
         scenario_R))
  /\ verifyMerkleProofClientSide
       (after_fetch (proof_result "aa" scenario_R 1 ["bb"; "cc"]))
     = Some (Returned
         (report (spec_verify "aa" ["bb"; "cc"] scenario_R)
            (after_fetch (proof_result "aa" scenario_R 1 ["bb"; "cc"])))).
Proof.
  apply (verifier_folds_over_path
           (after_fetch (proof_result "aa" scenario_R 1 ["bb"; "cc"]))
           (proof_result "aa" scenario_R 1 ["bb"; "cc"])
           "aa" ["bb"; "cc"] scenario_R).
  - reflexivity.
  - repeat split; vm_compute; reflexivity.
Defined.

(** C3: if the root [R] is built from the leaf [L] by combining it with each
    entry of [P] in turn under the sorted-concatenation rule, the verifier
    accepts [L], [P], [R]. *)
Theorem constructed_root_is_accepted
    (st : AppState) (o : jsobject) (L : string) (P : list string) (R : string) :
  R = construct_root L P ->
  merkleProofResult st = Some o ->
  carries o L P R ->
  proof_verdict o = Some (Returned true)
  /\ verifyMerkleProofClientSide st
     = Some (Returned (showMessage msg_verified false st)).
Proof.
  intros -> Hst Ho.
  assert (spec_verify L P (construct_root L P) = true) as Hacc
    by (unfold spec_verify; apply String.eqb_refl).
  split.
  - rewrite (proof_verdict_carries _ _ _ _ Ho), Hacc. reflexivity.
  - rewrite (verify_carries _ _ _ _ _ Hst Ho), Hacc. reflexivity.
Qed.

Lemma constructed_root_is_accepted_witness :
  proof_verdict
    (proof_result "aa" (construct_root "aa" ["bb"; "cc"; "dd"]) 2 ["bb"; "cc"; "dd"])
  = Some (Returned true)
  /\ verifyMerkleProofClientSide
       (after_fetch
          (proof_result "aa" (construct_root "aa" ["bb"; "cc"; "dd"]) 2
             ["bb"; "cc"; "dd"]))
     = Some (Returned
         (showMessage msg_verified false
            (after_fetch
               (proof_result "aa" (construct_root "aa" ["bb"; "cc"; "dd"]) 2
                  ["bb"; "cc"; "dd"])))).
Proof.
  apply (constructed_root_is_accepted
           (after_fetch
              (proof_result "aa" (construct_root "aa" ["bb"; "cc"; "dd"]) 2
                 ["bb"; "cc"; "dd"]))
           (proof_result "aa" (construct_root "aa" ["bb"; "cc"; "dd"]) 2
              ["bb"; "cc"; "dd"])
           "aa" ["bb"; "cc"; "dd"] (construct_root "aa" ["bb"; "cc"; "dd"])).
  - reflexivity.
  - reflexivity.
  - repeat split; vm_compute; reflexivity.
Defined.

(** C4: with an empty proof the verifier accepts if and only if the leaf is
    the expected root: it accepts [L], [[]], [L], and rejects [L], [[]], [R]
    whenever [L <> R]. *)
Theorem empty_proof_semantics
    (st : AppState) (o : jsobject) (L R : string) :
  merkleProofResult st = Some o ->
  carries o L [] R ->
  proof_verdict o = Some (Returned (String.eqb L R))
  /\ (verifyMerkleProofClientSide st = Some (Returned (report true st)) <-> L = R)
  /\ (L <> R ->
      verifyMerkleProofClientSide st = Some (Returned (report false st))).
Proof.
  intros Hst Ho.
  pose proof (proof_verdict_carries _ _ _ _ Ho) as Hv.
  pose proof (verify_carries _ _ _ _ _ Hst Ho) as Hrun.
  unfold spec_verify, construct_root in Hv, Hrun.
  cbn [fold_left] in Hv, Hrun.
  split; [exact Hv|]. split; [split|].
  - rewrite Hrun. intros [= Hsame].
    destruct (String.eqb_spec L R) as [Heq | Hne]; [exact Heq|].
    exfalso. now apply (report_true_false st).
  - intros ->. rewrite Hrun, String.eqb_refl. reflexivity.
  - intros Hne. rewrite Hrun. apply String.eqb_neq in Hne. now rewrite Hne.
Qed.

Lemma empty_proof_semantics_witness :
  proof_verdict (proof_result "ab12" "ab13" 0 [])
  = Some (Returned (String.eqb "ab12" "ab13"))
  /\ (verifyMerkleProofClientSide (after_fetch (proof_result "ab12" "ab13" 0 []))
      = Some (Returned (report true (after_fetch (proof_result "ab12" "ab13" 0 []))))
      <-> "ab12" = "ab13")
  /\ ("ab12" <> "ab13" ->
      verifyMerkleProofClientSide (after_fetch (proof_result "ab12" "ab13" 0 []))
      = Some (Returned
          (report false (after_fetch (proof_result "ab12" "ab13" 0 []))))).
Proof.
  apply (empty_proof_semantics
           (after_fetch (proof_result "ab12" "ab13" 0 []))
           (proof_result "ab12" "ab13" 0 []) "ab12" "ab13").
  - reflexivity.
  - repeat split; vm_compute; reflexivity.
Defined.

(** C5: for every leaf string, list of sibling strings and expected root
    string, well-formed digests or not, the verifier does not throw: it
    completes with a boolean verdict, and a recomputed value that differs
    from the expected root gives the verdict [false], not an exception. *)
Theorem verifier_never_throws
    (st : AppState) (o : jsobject) (leaf : string) (proof : list string)
    (root : string) :
  merkleProofResult st = Some o ->
  carries o leaf proof root ->
  (exists ok : bool,
      proof_verdict o = Some (Returned ok)
      /\ verifyMerkleProofClientSide st = Some (Returned (report ok st)))
  /\ verifyMerkleProofClientSide st <> Some Thrown
  /\ (fold_left loop_body proof leaf <> root ->
      verifyMerkleProofClientSide st = Some (Returned (report false st))).
Proof.
  intros Hst Ho.
  pose proof (proof_verdict_carries _ _ _ _ Ho) as Hv.
  pose proof (verify_carries _ _ _ _ _ Hst Ho) as Hrun.
  repeat split.
  - exists (spec_verify leaf proof root). now split.
  - rewrite Hrun. discriminate.
  - intros Hne. rewrite Hrun. unfold spec_verify.
    rewrite fold_loop_body in Hne. apply String.eqb_neq in Hne.
    now rewrite Hne.
Qed.

Lemma verifier_never_throws_witness :
  (exists ok : bool,
      proof_verdict (proof_result "not hex!" "zz" 7 ["x"; "a much longer sibling"])
      = Some (Returned ok)
      /\ verifyMerkleProofClientSide
           (after_fetch
              (proof_result "not hex!" "zz" 7 ["x"; "a much longer sibling"]))
         = Some (Returned
             (report ok
                (after_fetch
                   (proof_result "not hex!" "zz" 7 ["x"; "a much longer sibling"])))))
  /\ verifyMerkleProofClientSide
       (after_fetch (proof_result "not hex!" "zz" 7 ["x"; "a much longer sibling"]))
     <> Some Thrown
  /\ (fold_left loop_body ["x"; "a much longer sibling"] "not hex!" <> "zz" ->
      verifyMerkleProofClientSide
        (after_fetch (proof_result "not hex!" "zz" 7 ["x"; "a much longer sibling"]))
      = Some (Returned
          (report false
             (after_fetch
                (proof_result "not hex!" "zz" 7 ["x"; "a much longer sibling"]))))).
Proof.
  apply (verifier_never_throws
           (after_fetch (proof_result "not hex!" "zz" 7 ["x"; "a much longer sibling"]))
           (proof_result "not hex!" "zz" 7 ["x"; "a much longer sibling"])
           "not hex!" ["x"; "a much longer sibling"] "zz").
  - reflexivity.
  - repeat split; vm_compute; reflexivity.
Defined.

(** C6, as the specification words it, fails: on an object whose properties
    are named [txHash], [merkleRoot], [blockIndex] and [proofPath] the
    destructuring finds nothing, the loop header throws on [undefined], and no
    verdict is given. *)
Lemma camel_case_object_throws :
  carries_camel (camel_result "aa" "aa" 0 []) "aa" [] "aa"
  /\ spec_verify "aa" [] "aa" = true
  /\ verifyMerkleProofClientSide (after_fetch (camel_result "aa" "aa" 0 []))
     = Some Thrown
  /\ ~ contract_as_specified.
Proof.
  assert (carries_camel (camel_result "aa" "aa" 0 []) "aa" [] "aa") as Hc.
  { unfold carries_camel, camel_result. repeat split; try (by simplify_map_eq).
    exists 0. by simplify_map_eq. }
  assert (verifyMerkleProofClientSide (after_fetch (camel_result "aa" "aa" 0 []))
          = Some Thrown) as Hrun by (vm_compute; reflexivity).
  repeat split; try exact Hrun; try apply Hc.
  intros Hspec.
  specialize (Hspec (after_fetch (camel_result "aa" "aa" 0 []))
                (camel_result "aa" "aa" 0 []) "aa" [] "aa" eq_refl Hc).
  rewrite Hrun in Hspec. discriminate Hspec.
Qed.

(** C6, amended: the object carries the properties [tx_hash], [merkle_root],
    [block_index] and [merkle_proof]; the verifier reads the leaf digest from
    [tx_hash], the claimed root from [merkle_root] and the sibling list from
    [merkle_proof], from no other property, and leaves the stored object as
    it was. *)
Theorem verifier_reads_snake_case_fields
    (st : AppState) (o : jsobject) (leaf : string) (proof : list string)
    (root : string) :
  merkleProofResult st = Some o ->
  carries o leaf proof root ->
  (exists st' : AppState,
      verifyMerkleProofClientSide st = Some (Returned st')
      /\ st' = report (spec_verify leaf proof root) st
      /\ merkleProofResult st' = Some o)
  /\ (forall o' : jsobject,
        o' !! "tx_hash" = o !! "tx_hash" ->
        o' !! "merkle_root" = o !! "merkle_root" ->
        o' !! "merkle_proof" = o !! "merkle_proof" ->
        proof_verdict o' = proof_verdict o).
Proof.
  intros Hst Ho. split.
  - exists (report (spec_verify leaf proof root) st). repeat split.
    + now apply verify_carries with (o := o).
    + unfold report. destruct (spec_verify leaf proof root); exact Hst.
  - intros o' Hleaf Hroot Hproof. unfold proof_verdict.
    rewrite Hleaf, Hroot, Hproof. reflexivity.
Qed.

Lemma verifier_reads_snake_case_fields_witness :
  (exists st' : AppState,
      verifyMerkleProofClientSide (after_fetch (proof_result "aa" "aa" 0 []))
      = Some (Returned st')
      /\ st' = report (spec_verify "aa" [] "aa")
                 (after_fetch (proof_result "aa" "aa" 0 []))
      /\ merkleProofResult st' = Some (proof_result "aa" "aa" 0 []))
  /\ (forall o' : jsobject,
        o' !! "tx_hash" = proof_result "aa" "aa" 0 [] !! "tx_hash" ->
        o' !! "merkle_root" = proof_result "aa" "aa" 0 [] !! "merkle_root" ->
        o' !! "merkle_proof" = proof_result "aa" "aa" 0 [] !! "merkle_proof" ->
        proof_verdict o' = proof_verdict (proof_result "aa" "aa" 0 [])).
Proof.
  apply (verifier_reads_snake_case_fields
           (after_fetch (proof_result "aa" "aa" 0 []))
           (proof_result "aa" "aa" 0 []) "aa" [] "aa").
  - reflexivity.
  - repeat split; vm_compute; reflexivity.
Defined.

(** C7: the concrete scenario.  With [L = aa], siblings [bb] then [cc],
    [H1 = hash(aa + bb)] since [aa < bb], and [R] the hash of [H1] and [cc] in
    sorted order, the verifier accepts the proof [bb; cc] against [R], rejects
    [bb; dd] against [R], and rejects the reversed proof [cc; bb] against [R]. *)
Theorem concrete_scenario :
  String.ltb "aa" "bb" = true
  /\ loop_body "aa" "bb" = scenario_H1
  /\ loop_body scenario_H1 "cc" = scenario_R
  /\ verifyMerkleProofClientSide
       (after_fetch (proof_result "aa" scenario_R 0 ["bb"; "cc"]))
     = Some (Returned
         (report true (after_fetch (proof_result "aa" scenario_R 0 ["bb"; "cc"]))))
  /\ verifyMerkleProofClientSide
       (after_fetch (proof_result "aa" scenario_R 0 ["bb"; "dd"]))
     = Some (Returned
         (report false (after_fetch (proof_result "aa" scenario_R 0 ["bb"; "dd"]))))
  /\ verifyMerkleProofClientSide
       (after_fetch (proof_result "aa" scenario_R 0 ["cc"; "bb"]))
     = Some (Returned
         (report false (after_fetch (proof_result "aa" scenario_R 0 ["cc"; "bb"])))).
Proof.
  assert (String.ltb "aa" "bb" = true) as Hlt by reflexivity.
  split; [exact Hlt|].
  split; [apply (loop_body_lt _ _ Hlt)|].
  split.
  { unfold scenario_R.
    destruct (String.ltb scenario_H1 "cc") eqn:Hcc.
    - apply (loop_body_lt _ _ Hcc).
    - apply (loop_body_ge _ _ Hcc). }
  split; [|split].
  - rewrite verify_after_fetch.
    assert (spec_verify "aa" ["bb"; "cc"] scenario_R = true) as ->
      by (vm_compute; reflexivity).
    reflexivity.
  - rewrite verify_after_fetch.
    assert (spec_verify "aa" ["bb"; "dd"] scenario_R = false) as ->
      by (vm_compute; reflexivity).
    reflexivity.
  - rewrite verify_after_fetch.
    assert (spec_verify "aa" ["cc"; "bb"] scenario_R = false) as ->
      by (vm_compute; reflexivity).
    reflexivity.
Qed.

(** C10: one verification step is commutative, from [current = a] with sibling
    [b] and from [current = b] with sibling [a]; hence for every root [r] the
    verdict on [a], [[b]], [r] is the verdict on [b], [[a]], [r]. *)
Theorem pair_combination_commutative
    (a b r : string) (o1 o2 : jsobject) :
  carries o1 a [b] r ->
  carries o2 b [a] r ->
  loop_body a b = loop_body b a
  /\ proof_verdict o1 = proof_verdict o2.
Proof.
  intros H1 H2. split.
  - apply loop_body_comm.
  - rewrite (proof_verdict_carries _ _ _ _ H1), (proof_verdict_carries _ _ _ _ H2).
    unfold spec_verify. rewrite <- !fold_loop_body. cbn [fold_left].
    rewrite (loop_body_comm a b). reflexivity.
Qed.

Lemma pair_combination_commutative_witness :
  loop_body "aa" "bb" = loop_body "bb" "aa"
  /\ proof_verdict (proof_result "aa" scenario_H1 3 ["bb"])
     = proof_verdict (proof_result "bb" scenario_H1 3 ["aa"]).
Proof.
  apply (pair_combination_commutative "aa" "bb" scenario_H1
           (proof_result "aa" scenario_H1 3 ["bb"])
           (proof_result "bb" scenario_H1 3 ["aa"])).
  - repeat split; vm_compute; reflexivity.
  - repeat split; vm_compute; reflexivity.
Defined.

(** ** The transaction hash *)

(** C8: the transaction hash is a function of the transaction alone: hashing
    the same transaction twice gives the same digest, and two transactions
    equal field for field have equal digests. *)
Theorem calculateTxHash_deterministic (t1 t2 : Transaction) :
  sender t1 = sender t2 ->
  recipient t1 = recipient t2 ->
  amount t1 = amount t2 ->
  calculateTxHash t1 = calculateTxHash t1
  /\ calculateTxHash t1 = calculateTxHash t2.
Proof.
  destruct t1 as [s1 r1 a1], t2 as [s2 r2 a2]. simpl.
  intros -> -> ->. split; reflexivity.
Qed.

Lemma calculateTxHash_deterministic_witness :
  calculateTxHash (alice_bob 10) = calculateTxHash (alice_bob 10)
  /\ calculateTxHash (alice_bob 10)
     = calculateTxHash {| sender := "Alice"; recipient := "Bob"; amount := 5 + 5 |}.
Proof.
  apply (calculateTxHash_deterministic (alice_bob 10)
           {| sender := "Alice"; recipient := "Bob"; amount := 5 + 5 |}).
  - reflexivity.
  - reflexivity.
  - reflexivity.
Defined.

(** C9: the digest depends on the amount only.  The template interpolates
    [tx.amount] alone, the references to the sender and the recipient being
    text, so two transactions with the same amount have the same digest
    whatever their sender and recipient. *)
Theorem calculateTxHash_depends_on_amount_only (t1 t2 : Transaction) :
  amount t1 = amount t2 ->
  calculateTxHash t1 = calculateTxHash t2
  /\ calculateTxHash t1 = sha256 (template_text +:+ Number_toString (amount t2)).
Proof.
  intros Hamount. unfold calculateTxHash. rewrite Hamount. split; reflexivity.
Qed.

Lemma calculateTxHash_depends_on_amount_only_witness :
  calculateTxHash (alice_bob 10)
  = calculateTxHash {| sender := "Mallory"; recipient := "Eve"; amount := 10 |}
  /\ calculateTxHash (alice_bob 10)
     = sha256 (template_text +:+ Number_toString 10).
Proof.
  apply (calculateTxHash_depends_on_amount_only (alice_bob 10)
           {| sender := "Mallory"; recipient := "Eve"; amount := 10 |}).
  reflexivity.
Defined.

(** C2 fails on the code: for Alice paying Bob 10 the digest computed is the
    hash of the template text followed by [10], not the hash of [AliceBob10]
    that the specification's hasher gives. *)
Lemma calculateTxHash_is_not_spec_hash :
  calculateTxHash (alice_bob 10)
  = "88551e7f46e903a6550db0567d2376076eb678815efc16da87d08f5bcfed77f7"
  /\ spec_hash (alice_bob 10) = sha256 "AliceBob10"
  /\ spec_hash (alice_bob 10)
     = "9331e000777877ac9b82fb7b8cef3de72fe58570e59244ca6eed0128d8fa9cfa"
  /\ String.eqb (calculateTxHash (alice_bob 10)) (spec_hash (alice_bob 10)) = false.
Proof.
  assert (spec_hash (alice_bob 10) = sha256 "AliceBob10") as Hspec by reflexivity.
  split; [vm_compute; reflexivity|].
  split; [exact Hspec|].
  split; [rewrite Hspec|]; vm_compute; reflexivity.
Qed.

(** * Further properties of the code *)

(** ** The shape of a recomputed hash *)

Lemma string_of_list_ascii_length (l : list ascii) :
  String.length (string_of_list_ascii l) = List.length l.
Proof.
  induction l as [|c l IH]; simpl; [reflexivity | now rewrite IH].
Qed.

Lemma hex_digit_is_hex (x : Z) :
  is_hex_char (SHA256.hex_digit (Z.land x 0xF)) = true.
Proof.
  assert (0 <= Z.land x 0xF < 16) as Hrange.
  { change 0xF with (Z.ones 4). rewrite Z.land_ones by lia.
    apply Z.mod_pos_bound. reflexivity. }
  remember (Z.land x 0xF) as v eqn:Hv. clear Hv.
  assert (v = 0 \/ v = 1 \/ v = 2 \/ v = 3 \/ v = 4 \/ v = 5 \/ v = 6 \/ v = 7
          \/ v = 8 \/ v = 9 \/ v = 10 \/ v = 11 \/ v = 12 \/ v = 13 \/ v = 14
          \/ v = 15) as Hcases by lia.
  repeat (destruct Hcases as [-> | Hcases]; [reflexivity|]).
  subst v. reflexivity.
Qed.

Lemma hex_word_is_hex (w : Z) : forallb is_hex_char (SHA256.hex_word w) = true.
Proof.
  unfold SHA256.hex_word. apply forallb_forall. intros c Hc.
  apply in_map_iff in Hc as (i & <- & _). apply hex_digit_is_hex.
Qed.

Lemma hex_is_digest (h : SHA256.Hasher) : is_digest (SHA256.hex h) = true.
Proof.
  unfold is_digest, SHA256.hex, SHA256.hex_of_regs.
  rewrite string_of_list_ascii_length, list_ascii_of_string_of_list_ascii.
  apply andb_true_intro. split.
  - reflexivity.
  - cbn [flat_map]. rewrite !forallb_app, !hex_word_is_hex. reflexivity.
Qed.

Lemma loop_body_is_digest (current sibling : string) :
  is_digest (loop_body current sibling) = true.
Proof.
  unfold loop_body. apply hex_is_digest.
Qed.

Lemma fold_is_digest (proof : list string) (current : string) :
  proof <> [] -> is_digest (fold_left loop_body proof current) = true.
Proof.
  revert current. induction proof as [|sibling rest IH]; intros current Hne.
  - now destruct Hne.
  - cbn [fold_left]. destruct rest as [|next rest].
    + apply loop_body_is_digest.
    + apply IH. discriminate.
Qed.


(** X1: With at least one sibling the recomputed hash is a digest, so an expected
    root that is not 64 lowercase hexadecimal characters is always rejected. *)
Theorem malformed_root_is_rejected
    (st : AppState) (o : jsobject) (leaf : string) (proof : list string)
    (root : string) :
  merkleProofResult st = Some o ->
  carries o leaf proof root ->
  proof <> [] ->
  is_digest root = false ->
  is_digest (fold_left loop_body proof leaf) = true
  /\ verifyMerkleProofClientSide st = Some (Returned (report false st)).
Proof.
  intros Hst Ho Hne Hroot.
  pose proof (fold_is_digest proof leaf Hne) as Hdig.
  split; [exact Hdig|].
  rewrite (verify_carries _ _ _ _ _ Hst Ho). unfold spec_verify.
  rewrite <- fold_loop_body.
  destruct (String.eqb_spec (fold_left loop_body proof leaf) root) as [Heq | _].
  - rewrite Heq in Hdig. congruence.
  - reflexivity.
Qed.

Lemma malformed_root_is_rejected_witness :
  is_digest (fold_left loop_body ["bb"] "aa") = true
  /\ verifyMerkleProofClientSide
       (after_fetch (proof_result "aa" "486B3425" 0 ["bb"]))
     = Some (Returned
         (report false (after_fetch (proof_result "aa" "486B3425" 0 ["bb"])))).
Proof.
  apply (malformed_root_is_rejected
           (after_fetch (proof_result "aa" "486B3425" 0 ["bb"]))
           (proof_result "aa" "486B3425" 0 ["bb"]) "aa" ["bb"] "486B3425").
  - reflexivity.
  - repeat split; vm_compute; reflexivity.
  - discriminate.
  - vm_compute. reflexivity.
Defined.

(** ** What an accepted proof determines *)

Lemma verdict_true_fold (o : jsobject) leaf proof root :
  carries o leaf proof root ->
  proof_verdict o = Some (Returned true) ->
  fold_left loop_body proof leaf = root.
Proof.
  intros Ho Hv. rewrite (proof_verdict_carries _ _ _ _ Ho) in Hv.
  injection Hv as Hv. unfold spec_verify in Hv.
  rewrite fold_loop_body. now apply String.eqb_eq.
Qed.

(** X2: A leaf and a path are accepted against one root only. *)
Theorem accepted_root_is_unique
    (o1 o2 : jsobject) (leaf : string) (proof : list string) (root1 root2 : string) :
  carries o1 leaf proof root1 ->
  carries o2 leaf proof root2 ->
  proof_verdict o1 = Some (Returned true) ->
  proof_verdict o2 = Some (Returned true) ->
  root1 = root2.
Proof.
  intros H1 H2 Hv1 Hv2.
  rewrite <- (verdict_true_fold _ _ _ _ H1 Hv1).
  apply (verdict_true_fold _ _ _ _ H2 Hv2).
Qed.

Lemma accepted_root_is_unique_witness : scenario_R = loop_body scenario_H1 "cc".
Proof.
  apply (accepted_root_is_unique
           (proof_result "aa" scenario_R 0 ["bb"; "cc"])
           (proof_result "aa" (loop_body scenario_H1 "cc") 5 ["bb"; "cc"])
           "aa" ["bb"; "cc"]).
  - repeat split; vm_compute; reflexivity.
  - repeat split; vm_compute; reflexivity.
  - vm_compute. reflexivity.
  - vm_compute. reflexivity.
Defined.

(** X3: A path can be cut anywhere: verifying [P1 ++ P2] from the leaf gives the
    verdict of verifying [P2] from the hash reached after [P1]. *)
Theorem path_can_be_split
    (o o' : jsobject) (leaf : string) (P1 P2 : list string) (root : string) :
  carries o leaf (P1 ++ P2) root ->
  carries o' (fold_left loop_body P1 leaf) P2 root ->
  proof_verdict o = proof_verdict o'.
Proof.
  intros Ho Ho'.
  rewrite (proof_verdict_carries _ _ _ _ Ho), (proof_verdict_carries _ _ _ _ Ho').
  unfold spec_verify. rewrite <- !fold_loop_body, fold_left_app. reflexivity.
Qed.

Lemma path_can_be_split_witness :
  proof_verdict (proof_result "aa" scenario_R 0 (["bb"] ++ ["cc"]))
  = proof_verdict (proof_result (fold_left loop_body ["bb"] "aa") scenario_R 0 ["cc"]).
Proof.
  apply (path_can_be_split
           (proof_result "aa" scenario_R 0 (["bb"] ++ ["cc"]))
           (proof_result (fold_left loop_body ["bb"] "aa") scenario_R 0 ["cc"])
           "aa" ["bb"] ["cc"] scenario_R).
  - repeat split; vm_compute; reflexivity.
  - repeat split; vm_compute; reflexivity.
Defined.

(** ** Binding of the leaf *)


Lemma append_length (a b : string) :
  String.length (a +:+ b) = (String.length a + String.length b)%nat.
Proof.
  induction a as [|c a IH]; simpl; [reflexivity | now rewrite IH].
Qed.






(** ** Strings of unequal length *)

Lemma ascii_compare_refl (c : ascii) : Ascii.compare c c = Eq.
Proof.
  unfold Ascii.compare. apply N.compare_refl.
Qed.

Lemma ltb_proper_prefix (s x : string) :
  x <> EmptyString -> String.ltb s (s +:+ x) = true.
Proof.
  intros Hx. unfold String.ltb.
  induction s as [|c s IH]; simpl.
  - destruct x; [now destruct Hx | reflexivity].
  - rewrite ascii_compare_refl. exact IH.
Qed.

Lemma append_assoc (a b c : string) : (a +:+ b) +:+ c = a +:+ (b +:+ c).
Proof.
  induction a as [|ch a IH]; [reflexivity|].
  change (String ch ((a +:+ b) +:+ c) = String ch (a +:+ (b +:+ c))).
  now f_equal.
Qed.

(** X5: The two strings fed to the hasher are not delimited.  For a sibling
    [x ++ y ++ x], the leaves [x ++ y] and [y ++ x] give the same bytes, hence
    the same hash and the same verdict, although no hash collides. *)
Theorem undelimited_pair_is_ambiguous
    (x y r : string) (o1 o2 : jsobject) :
  x <> EmptyString ->
  String.ltb (y +:+ x) (x +:+ y +:+ x) = false ->
  carries o1 (x +:+ y) [x +:+ y +:+ x] r ->
  carries o2 (y +:+ x) [x +:+ y +:+ x] r ->
  loop_body (x +:+ y) (x +:+ y +:+ x) = loop_body (y +:+ x) (x +:+ y +:+ x)
  /\ proof_verdict o1 = proof_verdict o2.
Proof.
  intros Hx Hge Ho1 Ho2.
  assert (loop_body (x +:+ y) (x +:+ y +:+ x) = loop_body (y +:+ x) (x +:+ y +:+ x))
    as Hsame.
  { rewrite (loop_body_ge _ _ Hge).
    rewrite loop_body_lt.
    - now rewrite !append_assoc.
    - rewrite <- append_assoc. now apply ltb_proper_prefix. }
  split; [exact Hsame|].
  rewrite (proof_verdict_carries _ _ _ _ Ho1), (proof_verdict_carries _ _ _ _ Ho2).
  unfold spec_verify. rewrite <- !fold_loop_body. cbn [fold_left].
  now rewrite Hsame.
Qed.

Lemma undelimited_pair_is_ambiguous_witness :
  loop_body ("a" +:+ "b") ("a" +:+ "b" +:+ "a")
  = loop_body ("b" +:+ "a") ("a" +:+ "b" +:+ "a")
  /\ proof_verdict
       (proof_result ("a" +:+ "b") (loop_body "ab" "aba") 0 ["a" +:+ "b" +:+ "a"])
     = proof_verdict
         (proof_result ("b" +:+ "a") (loop_body "ab" "aba") 0 ["a" +:+ "b" +:+ "a"]).
Proof.
  apply (undelimited_pair_is_ambiguous "a" "b" (loop_body "ab" "aba")
           (proof_result ("a" +:+ "b") (loop_body "ab" "aba") 0 ["a" +:+ "b" +:+ "a"])
           (proof_result ("b" +:+ "a") (loop_body "ab" "aba") 0 ["a" +:+ "b" +:+ "a"])).
  - discriminate.
  - reflexivity.
  - repeat split; vm_compute; reflexivity.
  - repeat split; vm_compute; reflexivity.
Defined.

(** The two leaves of the witness are different and both are accepted. *)
Example ab_and_ba_share_a_root :
  String.eqb "ab" "ba" = false
  /\ proof_verdict (proof_result "ab" (loop_body "ab" "aba") 0 ["aba"])
     = Some (Returned true)
  /\ proof_verdict (proof_result "ba" (loop_body "ab" "aba") 0 ["aba"])
     = Some (Returned true).
Proof.
  split; [reflexivity|]. split; vm_compute; reflexivity.
Qed.

(** ** When the verifier throws, and what it accepts on missing fields *)


(** X7: An object with an empty [merkle_proof] and neither [tx_hash] nor
    [merkle_root] is reported as verified: both reads give [undefined], and
    [undefined === undefined] holds. *)
Theorem missing_hashes_verify
    (st : AppState) (o : jsobject) :
  merkleProofResult st = Some o ->
  o !! "merkle_proof" = Some (VArr []) ->
  o !! "tx_hash" = None ->
  o !! "merkle_root" = None ->
  verifyMerkleProofClientSide st
  = Some (Returned (showMessage msg_verified false st)).
Proof.
  intros Hst Hpath Hleaf Hroot.
  unfold verifyMerkleProofClientSide, proof_verdict.
  rewrite Hst, Hpath, Hleaf, Hroot. reflexivity.
Qed.

Lemma missing_hashes_verify_witness :
  verifyMerkleProofClientSide
    (after_fetch {[ "merkle_proof" := VArr []; "block_index" := VNum 3 ]})
  = Some (Returned
      (showMessage msg_verified false
         (after_fetch {[ "merkle_proof" := VArr []; "block_index" := VNum 3 ]}))).
Proof.
  apply (missing_hashes_verify
           (after_fetch {[ "merkle_proof" := VArr []; "block_index" := VNum 3 ]})
           {[ "merkle_proof" := VArr []; "block_index" := VNum 3 ]}).
  - reflexivity.
  - vm_compute. reflexivity.
  - vm_compute. reflexivity.
  - vm_compute. reflexivity.
Defined.

(** ** Running the verifier again *)

Lemma showMessage_showMessage (m m' : string) (e e' : bool) (st : AppState) :
  showMessage m e (showMessage m' e' st) = showMessage m e st.
Proof.
  unfold showMessage. cbn [message messageDiv merkleProofResult].
  destruct (messageDiv st); reflexivity.
Qed.

Lemma report_report (ok : bool) (st : AppState) :
  report ok (report ok st) = report ok st.
Proof.
  unfold report. destruct ok; apply showMessage_showMessage.
Qed.

Lemma merkleProofResult_report (ok : bool) (st : AppState) :
  merkleProofResult (report ok st) = merkleProofResult st.
Proof.
  unfold report. now destruct ok.
Qed.

(** X8: Whenever the verifier returns, the stored proof object is the one it
    started from, and verifying again changes nothing more. *)
Theorem verifier_is_idempotent (st st' : AppState) :
  verifyMerkleProofClientSide st = Some (Returned st') ->
  merkleProofResult st' = merkleProofResult st
  /\ verifyMerkleProofClientSide st' = Some (Returned st').
Proof.
  unfold verifyMerkleProofClientSide.
  destruct (merkleProofResult st) as [o|] eqn:Hst.
  - destruct (proof_verdict o) as [[ok|]|] eqn:Hv; try discriminate.
    intros [= <-]. rewrite merkleProofResult_report, Hst, Hv, report_report.
    now split.
  - intros [= <-]. cbn [showMessage merkleProofResult]. rewrite Hst.
    rewrite showMessage_showMessage. now split.
Qed.

Lemma verifier_is_idempotent_witness :
  merkleProofResult
    (report true (after_fetch (proof_result "aa" scenario_R 0 ["bb"; "cc"])))
  = merkleProofResult (after_fetch (proof_result "aa" scenario_R 0 ["bb"; "cc"]))
  /\ verifyMerkleProofClientSide
       (report true (after_fetch (proof_result "aa" scenario_R 0 ["bb"; "cc"])))
     = Some (Returned
         (report true (after_fetch (proof_result "aa" scenario_R 0 ["bb"; "cc"])))).
Proof.
  apply (verifier_is_idempotent
           (after_fetch (proof_result "aa" scenario_R 0 ["bb"; "cc"]))
           (report true (after_fetch (proof_result "aa" scenario_R 0 ["bb"; "cc"])))).
  vm_compute. reflexivity.
Defined.

(** ** Fetching a proof *)

Lemma merkleProofResult_showMessage (m : string) (e : bool) (st : AppState) :
  merkleProofResult (showMessage m e st) = merkleProofResult st.
Proof. reflexivity. Qed.

(** X9: The request does not depend on the transaction hash entered: for any two
    non-empty hashes the same URL is fetched and the same state results. *)
Theorem proof_request_ignores_hash
    (h1 h2 : string) (fetch : string -> fetch_result) (st : AppState) :
  h1 <> EmptyString ->
  h2 <> EmptyString ->
  merkle_proof_url h1 = merkle_proof_url h2
  /\ getMerkleProof h1 fetch st = getMerkleProof h2 fetch st.
Proof.
  intros H1 H2. split; [reflexivity|].
  destruct h1 as [|c1 h1]; [now destruct H1|].
  destruct h2 as [|c2 h2]; [now destruct H2|].
  reflexivity.
Qed.

Lemma proof_request_ignores_hash_witness :
  merkle_proof_url "486b3425" = merkle_proof_url "7d145a73"
  /\ getMerkleProof "486b3425"
       (fun _ => Resolved (Response 200 (Returned (Some (proof_result "aa" "aa" 0 [])))))
       rendered
     = getMerkleProof "7d145a73"
         (fun _ => Resolved (Response 200 (Returned (Some (proof_result "aa" "aa" 0 [])))))
         rendered.
Proof.
  apply (proof_request_ignores_hash "486b3425" "7d145a73"
           (fun _ => Resolved (Response 200 (Returned (Some (proof_result "aa" "aa" 0 [])))))
           rendered).
  - discriminate.
  - discriminate.
Defined.

(** X10: After the handler a proof object is stored exactly when a hash was
    entered and the response, not a 404, had that object as its JSON body.
    Whatever was stored before is gone on every other path. *)
Theorem stored_proof_comes_from_the_response
    (h : string) (fetch : string -> fetch_result) (st : AppState) (o : jsobject) :
  merkleProofResult (getMerkleProof h fetch st) = Some o
  <-> h <> EmptyString
      /\ exists status : Z,
           status <> 404
           /\ fetch (merkle_proof_url h) = Resolved (Response status (Returned (Some o))).
Proof.
  unfold getMerkleProof. destruct h as [|c h].
  - cbn [setMerkleProofResult merkleProofResult]. split; [discriminate|].
    intros [Hne _]. now destruct Hne.
  - destruct (fetch (merkle_proof_url (String c h))) as [|[status json]].
    + cbn [setMerkleProofResult merkleProofResult]. split; [discriminate|].
      intros [_ (s & _ & [=])].
    + destruct (Z.eqb_spec status 404) as [-> | Hstatus].
      * cbn [setMerkleProofResult merkleProofResult]. split; [discriminate|].
        intros [_ (s & Hs & [= <- _])]. now destruct Hs.
      * destruct json as [data|].
        -- rewrite merkleProofResult_showMessage.
           cbn [setMerkleProofResult merkleProofResult]. split.
           ++ intros ->. split; [discriminate|]. now exists status.
           ++ intros [_ (s & _ & [= _ ->])]. reflexivity.
        -- cbn [setMerkleProofResult merkleProofResult]. split; [discriminate|].
           intros [_ (s & _ & [=])].
Qed.

Lemma getMerkleProof_success
    (h : string) (fetch : string -> fetch_result) (st : AppState)
    (status : Z) (data : option jsobject) :
  h <> EmptyString ->
  status <> 404 ->
  fetch (merkle_proof_url h) = Resolved (Response status (Returned data)) ->
  getMerkleProof h fetch st
  = showMessage msg_fetched false
      (setMerkleProofResult data (setMerkleProofResult None st)).
Proof.
  intros Hh Hstatus Hfetch. unfold getMerkleProof.
  destruct h as [|c h]; [now destruct Hh|].
  rewrite Hfetch. destruct (Z.eqb_spec status 404) as [E|_]; [now destruct Hstatus|].
  reflexivity.
Qed.

Lemma getMerkleProof_rendered
    (h : string) (fetch : string -> fetch_result) (status : Z) (o : jsobject) :
  h <> EmptyString ->
  status <> 404 ->
  fetch (merkle_proof_url h) = Resolved (Response status (Returned (Some o))) ->
  getMerkleProof h fetch rendered = after_fetch o.
Proof.
  intros Hh Hstatus Hfetch. unfold getMerkleProof.
  destruct h as [|c h]; [now destruct Hh|].
  rewrite Hfetch. destruct (Z.eqb_spec status 404) as [E|_]; [now destruct Hstatus|].
  reflexivity.
Qed.

(** X11: Fetch, then verify: when the response carries a leaf, a path and a root,
    the verdict shown is the one of that leaf, path and root. *)
Theorem fetch_then_verify
    (h : string) (fetch : string -> fetch_result) (st : AppState)
    (status : Z) (o : jsobject) (leaf : string) (proof : list string) (root : string) :
  h <> EmptyString ->
  status <> 404 ->
  fetch (merkle_proof_url h) = Resolved (Response status (Returned (Some o))) ->
  carries o leaf proof root ->
  verifyMerkleProofClientSide (getMerkleProof h fetch st)
  = Some (Returned (report (spec_verify leaf proof root) (getMerkleProof h fetch st))).
Proof.
  intros Hh Hstatus Hfetch Ho.
  apply verify_carries with (o := o); [|exact Ho].
  rewrite (getMerkleProof_success _ _ _ _ _ Hh Hstatus Hfetch). reflexivity.
Qed.

Lemma fetch_then_verify_witness :
  verifyMerkleProofClientSide
    (getMerkleProof "486b3425"
       (fun _ => Resolved
          (Response 200 (Returned (Some (proof_result "aa" scenario_R 0 ["bb"; "cc"])))))
       (after_fetch (proof_result "zz" "zz" 9 [])))
  = Some (Returned
      (report (spec_verify "aa" ["bb"; "cc"] scenario_R)
         (getMerkleProof "486b3425"
            (fun _ => Resolved
               (Response 200
                  (Returned (Some (proof_result "aa" scenario_R 0 ["bb"; "cc"])))))
            (after_fetch (proof_result "zz" "zz" 9 []))))).
Proof.
  apply (fetch_then_verify "486b3425"
           (fun _ => Resolved
              (Response 200
                 (Returned (Some (proof_result "aa" scenario_R 0 ["bb"; "cc"])))))
           (after_fetch (proof_result "zz" "zz" 9 []))
           200 (proof_result "aa" scenario_R 0 ["bb"; "cc"])
           "aa" ["bb"; "cc"] scenario_R).
  - discriminate.
  - discriminate.
  - reflexivity.
  - repeat split; vm_compute; reflexivity.
Defined.

(** X12: A fetch that fails in any way (no hash entered, no connection, a 404, a
    body that is not JSON or is [null]) leaves nothing to verify: the
    verifier then asks to fetch a proof first, whatever was stored before. *)
Theorem failed_fetch_then_verify
    (h : string) (fetch : string -> fetch_result) (st : AppState) :
  h = EmptyString
  \/ fetch (merkle_proof_url h) = Rejected
  \/ (exists json, fetch (merkle_proof_url h) = Resolved (Response 404 json))
  \/ (exists status, fetch (merkle_proof_url h) = Resolved (Response status Thrown))
  \/ (exists status,
        fetch (merkle_proof_url h) = Resolved (Response status (Returned None))) ->
  verifyMerkleProofClientSide (getMerkleProof h fetch st)
  = Some (Returned (showMessage msg_no_proof true (getMerkleProof h fetch st))).
Proof.
  intros Hfail.
  assert (merkleProofResult (getMerkleProof h fetch st) = None) as Hnone.
  { unfold getMerkleProof. destruct h as [|c h]; [reflexivity|].
    destruct Hfail as [[=] | [Hr | [(j & Hr) | [(s & Hr) | (s & Hr)]]]];
      rewrite Hr; try reflexivity.
    - destruct (s =? 404); reflexivity.
    - destruct (s =? 404); reflexivity. }
  unfold verifyMerkleProofClientSide. now rewrite Hnone.
Qed.

Lemma failed_fetch_then_verify_witness :
  verifyMerkleProofClientSide
    (getMerkleProof "486b3425" (fun _ => Resolved (Response 404 Thrown))
       (after_fetch (proof_result "aa" "aa" 0 [])))
  = Some (Returned
      (showMessage msg_no_proof true
         (getMerkleProof "486b3425" (fun _ => Resolved (Response 404 Thrown))
            (after_fetch (proof_result "aa" "aa" 0 []))))).
Proof.
  apply (failed_fetch_then_verify "486b3425"
           (fun _ => Resolved (Response 404 Thrown))
           (after_fetch (proof_result "aa" "aa" 0 []))).
  right. right. left. exists Thrown. reflexivity.
Defined.

(** ** The transaction hash and the amount *)





(** ** Tampering with a sibling, and what the order of a pair hides *)





(** X15: The leaf and its first sibling can be exchanged in a path of any length
    without changing the verdict. *)
Theorem leaf_and_first_sibling_swap
    (o1 o2 : jsobject) (a b : string) (rest : list string) (root : string) :
  carries o1 a (b :: rest) root ->
  carries o2 b (a :: rest) root ->
  proof_verdict o1 = proof_verdict o2.
Proof.
  intros Ho1 Ho2.
  rewrite (proof_verdict_carries _ _ _ _ Ho1), (proof_verdict_carries _ _ _ _ Ho2).
  unfold spec_verify. rewrite <- !fold_loop_body. cbn [fold_left].
  rewrite (loop_body_comm a b). reflexivity.
Qed.

Lemma leaf_and_first_sibling_swap_witness :
  proof_verdict (proof_result "aa" scenario_R 0 ["bb"; "cc"])
  = proof_verdict (proof_result "bb" scenario_R 0 ["aa"; "cc"]).
Proof.
  apply (leaf_and_first_sibling_swap
           (proof_result "aa" scenario_R 0 ["bb"; "cc"])
           (proof_result "bb" scenario_R 0 ["aa"; "cc"])
           "aa" "bb" ["cc"] scenario_R).
  - repeat split; vm_compute; reflexivity.
  - repeat split; vm_compute; reflexivity.
Defined.

(** X16: The path does not record on which side a sibling stands: for a leaf [L]
    and any [A] and [B], the path [A; H(L, B)] and the path [B; H(L, A)]
    reach the same hash, so they get the same verdict against every root. *)
Theorem two_paths_reach_the_same_root
    (o1 o2 : jsobject) (L A B root : string) :
  carries o1 L [A; loop_body L B] root ->
  carries o2 L [B; loop_body L A] root ->
  fold_left loop_body [A; loop_body L B] L = fold_left loop_body [B; loop_body L A] L
  /\ proof_verdict o1 = proof_verdict o2.
Proof.
  intros Ho1 Ho2.
  assert (fold_left loop_body [A; loop_body L B] L
          = fold_left loop_body [B; loop_body L A] L) as Hsame.
  { cbn [fold_left]. apply loop_body_comm. }
  split; [exact Hsame|].
  rewrite (proof_verdict_carries _ _ _ _ Ho1), (proof_verdict_carries _ _ _ _ Ho2).
  unfold spec_verify. rewrite <- !fold_loop_body. now rewrite Hsame.
Qed.

Lemma two_paths_reach_the_same_root_witness :
  fold_left loop_body ["bb"; loop_body "aa" "cc"] "aa"
  = fold_left loop_body ["cc"; loop_body "aa" "bb"] "aa"
  /\ proof_verdict (proof_result "aa" scenario_R 0 ["bb"; loop_body "aa" "cc"])
     = proof_verdict (proof_result "aa" scenario_R 0 ["cc"; loop_body "aa" "bb"]).
Proof.
  apply (two_paths_reach_the_same_root
           (proof_result "aa" scenario_R 0 ["bb"; loop_body "aa" "cc"])
           (proof_result "aa" scenario_R 0 ["cc"; loop_body "aa" "bb"])
           "aa" "bb" "cc" scenario_R).
  - repeat split; vm_compute; reflexivity.
  - repeat split; vm_compute; reflexivity.
Defined.
